(** * Binding action creators to a store's dispatch

    A shallow embedding of the JavaScript of the lesson repository
    (src/App.js, the Counter component and the code blocks of the README
    variants) and the properties of the binding transformation
    [bindActionCreators] that the specification states.

    JavaScript functions are modelled in two layers.

    - Functions authored outside the binder (action creators, the store's
      [dispatch]) are _function objects_ [fn]: a reference (the identity
      that [===] compares) and a body that may read and change the state of
      the outside world and may throw.
    - Code of the repository runs in the monad [Eff]: it threads the outside
      state, a log of the calls the code makes to function objects, and the
      next free reference of the heap on which closures are allocated. *)

From Stdlib Require Import List String ZArith PArith Bool Lia.
Import ListNotations.
Local Open Scope string_scope.
Local Open Scope list_scope.
Local Set Warnings "-register-all".

(** ** JavaScript values *)

Inductive value : Type :=
| VUndef
| VNull
| VBool (b : bool)
| VNum (n : Z)
| VStr (s : string)
| VArr (elems : list value)
| VObj (fields : list (string * value))
| VTypeError (msg : string).

(** Completion of a JavaScript evaluation: a normal return or a throw. *)
Inductive outcome (A : Type) : Type :=
| Ret (a : A)
| Throw (e : value).
Arguments Ret {A} a.
Arguments Throw {A} e.

(** Own-property lookup in the property table of an object; the table is
    kept in insertion order, as [for ... in] enumerates it. *)
Fixpoint get_own {A : Type} (k : string) (o : list (string * A)) : option A :=
  match o with
  | [] => None
  | (k', v) :: rest => if String.eqb k k' then Some v else get_own k rest
  end.

(** The value an own-property read yields: [undefined] when absent. *)
Definition own_or_undefined (k : string) (fields : list (string * value))
    : value :=
  match get_own k fields with
  | Some v => v
  | None => VUndef
  end.

(** [Object.keys(o)]. *)
Definition keys {A : Type} (o : list (string * A)) : list string :=
  map fst o.

(** [arguments[i]], [undefined] past the end. *)
Definition arg (i : nat) (arguments : list value) : value :=
  nth i arguments VUndef.

(** ** Function objects, the call log and the effect monad *)

Section Binder.

(** State owned by the outside world (the state container and whatever
    else the injected functions close over). *)
Context {St : Type}.

(** A function object received from outside. *)
Record fn : Type := mkFn {
  fn_ref : positive;
  fn_body : list value -> St -> outcome value * St
}.

(** One call made by the code under study: callee and argument list. *)
Inductive call : Type :=
| Call (callee : positive) (args : list value).

Record world : Type := mkWorld {
  w_state : St;
  w_calls : list call;
  w_next : positive
}.

Definition Eff (A : Type) : Type := world -> outcome A * world.

Definition ret {A} (a : A) : Eff A := fun w => (Ret a, w).

Definition throw {A} (e : value) : Eff A := fun w => (Throw e, w).

Definition and_then {A B} (c : Eff A) (k : A -> Eff B) : Eff B :=
  fun w =>
    match c w with
    | (Ret a, w') => k a w'
    | (Throw e, w') => (Throw e, w')
    end.

(** [f(args)] for a function object: the call is logged, the body runs on
    the outside state, a throw of the body is the throw of the call. *)
Definition invoke (f : fn) (args : list value) : Eff value :=
  fun w =>
    let (r, s') := fn_body f args (w_state w) in
    (r, mkWorld s' (w_calls w ++ [Call (fn_ref f) args]) (w_next w)).

(** A closure created by the code under study. *)
Record closure : Type := mkClosure {
  c_ref : positive;
  c_code : list value -> Eff value
}.

(** Evaluation of a function expression: a fresh function object. *)
Definition new_closure (code : list value -> Eff value) : Eff closure :=
  fun w =>
    (Ret (mkClosure (w_next w) code),
     mkWorld (w_state w) (w_calls w) (Pos.succ (w_next w))).

End Binder.

Arguments fn St : clear implicits.
Arguments world St : clear implicits.
Arguments Eff St A : clear implicits.
Arguments closure St : clear implicits.

Declare Scope eff_scope.
Delimit Scope eff_scope with eff.
Notation "x <- c ;; k" := (and_then c (fun x => k))
  (at level 61, c at next level, right associativity) : eff_scope.
Local Open Scope eff_scope.

(** ** The binder *)

Section ActionBinder.

Context {St : Type}.

(** The wrapper that the README prints for [this.props.addItem]:
<<
    function () {
      return dispatch(actionCreator.apply(undefined, arguments));
    }
>>
    ([this] is [undefined] in the call and is not modelled). *)
Definition bindActionCreator (actionCreator dispatch : fn St)
    (arguments : list value) : Eff St value :=
  descriptor <- invoke actionCreator arguments ;;
  invoke dispatch [descriptor].

(** Modelled from the spec: the body of redux's [bindActionCreators], which
    src/App.js imports and calls but the repository does not contain. Per
    the contract of [bind] it returns a new map with the keys of
    [actionCreators], each value a new wrapper function object whose code
    is the wrapper above. *)
Fixpoint bindActionCreators (actionCreators : list (string * fn St))
    (dispatch : fn St) : Eff St (list (string * closure St)) :=
  match actionCreators with
  | [] => ret []
  | (key, actionCreator) :: rest =>
      wrapper <- new_closure (bindActionCreator actionCreator dispatch) ;;
      bound <- bindActionCreators rest dispatch ;;
      ret ((key, wrapper) :: bound)
  end.

(** [bound[key](...args)]: calling a missing property is a TypeError. *)
Definition call_method (bound : list (string * closure St)) (key : string)
    (args : list value) : Eff St value :=
  match get_own key bound with
  | Some wrapper => c_code wrapper args
  | None => throw (VTypeError "is not a function")
  end.

(** ** src/App.js *)

(** [state.items]: reading a property of [undefined] or [null] throws a
    TypeError, a missing own property reads as [undefined]. (Properties
    inherited from built-in prototypes are not modelled; [items] is not
    one of them.) *)
Definition get_prop (o : value) (k : string) : Eff St value :=
  match o with
  | VUndef | VNull => throw (VTypeError "cannot read properties")
  | VObj fields => ret (own_or_undefined k fields)
  | _ => ret VUndef
  end.

(** [function mapStateToProps(state){ return {items: state.items} }],
    also the selector [(state) => state.items] of the Counter component
    wrapped in an object. *)
Definition mapStateToProps (state : value) : Eff St value :=
  items <- get_prop state "items" ;;
  ret (VObj [("items", items)]).

(** [useSelector((state) => state.items)]: the selector itself. *)
Definition selectItems (state : value) : Eff St value :=
  get_prop state "items".

Section WithActions.

(** [import { addItem } from './actions/items']: the module is not part
    of the repository sources, the action creator is a parameter. *)
Variable addItem : fn St.

(** [function mapDispatchToProps(dispatch){
       return bindActionCreators({addItem: addItem}, dispatch) }] *)
Definition mapDispatchToProps (dispatch : fn St)
    : Eff St (list (string * closure St)) :=
  bindActionCreators [("addItem", addItem)] dispatch.

(** The hand-written variant of the README:
<<
  const mapDispatchToProps = dispatch => {
    return { addItem: () => { dispatch(addItem()) } };
  };
>>
    The arrow function has a block body without [return]. *)
Definition mapDispatchToProps_arrow (dispatch : fn St)
    : Eff St (list (string * closure St)) :=
  wrapper <- new_closure (fun _ =>
               descriptor <- invoke addItem [] ;;
               _ <- invoke dispatch [descriptor] ;;
               ret VUndef) ;;
  ret [("addItem", wrapper)].

(** [handleOnClick(){ this.props.store.dispatch(addItem()) }] *)
Definition handleOnClick (store_dispatch : fn St) : Eff St value :=
  descriptor <- invoke addItem [] ;;
  _ <- invoke store_dispatch [descriptor] ;;
  ret VUndef.

(** [handleOnClick = event => { this.props.addItem() }] *)
Definition handleOnClick_props (props : list (string * closure St))
    : Eff St value :=
  _ <- call_method props "addItem" [] ;;
  ret VUndef.

End WithActions.

(** ** The connecting layer *)

(** A field of the props that carry functions: either a function object
    handed through by reference or a wrapper created by binding. *)
Inductive callable : Type :=
| FnObj (f : fn St)
| Bound (c : closure St).

(** [dispatch => ({ dispatch })], which the README quotes as the default
    [mapDispatchToProps]. *)
Definition defaultMapDispatchToProps (dispatch : fn St)
    : Eff St (list (string * callable)) :=
  ret [("dispatch", FnObj dispatch)].

Definition as_props (bound : list (string * closure St))
    : list (string * callable) :=
  map (fun entry => (fst entry, Bound (snd entry))) bound.

(** The second input of [connect]: an object of action creators or a
    function of [dispatch]. *)
Inductive BindingSpec : Type :=
| ActionCreatorMap (actionCreators : list (string * fn St))
| BinderFunction (f : fn St -> Eff St (list (string * closure St))).

(** Modelled from the spec: the part of react-redux's [connect] that
    computes the function-valued props; the library is no part of the
    repository. An object is bound by the connecting layer with the
    contract of [bind], a function is called with [dispatch], and without
    a second input the default above applies. *)
Definition dispatchProps (spec : option BindingSpec) (dispatch : fn St)
    : Eff St (list (string * callable)) :=
  match spec with
  | None => defaultMapDispatchToProps dispatch
  | Some (ActionCreatorMap actionCreators) =>
      bound <- bindActionCreators actionCreators dispatch ;;
      ret (as_props bound)
  | Some (BinderFunction f) =>
      bound <- f dispatch ;;
      ret (as_props bound)
  end.

(** ** Observations used to state the properties *)

(** The object a binder returned, the empty object had it thrown. *)
Definition returned (r : outcome (list (string * closure St)) * world St)
    : list (string * closure St) :=
  match fst r with
  | Ret bound => bound
  | Throw _ => []
  end.

(** [n] successive invocations from event handlers: each runs on the
    world the previous one left, whatever its completion was. *)
Fixpoint invocations (n : nat) (c : Eff St value) (w : world St)
    : world St :=
  match n with
  | O => w
  | S n' => invocations n' c (snd (c w))
  end.

(** Entry by entry, the bound map has the key of the action-creator map
    and a wrapper whose code is [bindActionCreator] of that entry. *)
Definition binds (D : fn St) (entry : string * fn St)
    (b : string * closure St) : Prop :=
  fst b = fst entry /\ c_code (snd b) = bindActionCreator (snd entry) D.

Definition is_call_to (r : positive) (c : call) : bool :=
  match c with
  | Call callee _ => Pos.eqb r callee
  end.

(** How often the function object with reference [r] was called. *)
Definition calls_to (r : positive) (log : list call) : nat :=
  List.length (filter (is_call_to r) log).

End ActionBinder.

(** ** Fixtures of the scenarios *)

(** [{ type: "SET_COUNT", payload: n }] *)
Definition SET_COUNT (n : value) : value :=
  VObj [("type", VStr "SET_COUNT"); ("payload", n)].

Section Fixtures.

Context {St : Type}.

(** README, counterSlice.js:
    [export function incrementCount() { return { type: "count/increment" }; }] *)
Definition incrementCount : fn St :=
  mkFn 1%positive
       (fun _ s => (Ret (VObj [("type", VStr "count/increment")]), s)).

(** Counter component:
    [function handleOnClick() { dispatch(incrementCount()); }] *)
Definition Counter_handleOnClick (dispatch : fn St) : Eff St value :=
  descriptor <- invoke incrementCount [] ;;
  _ <- invoke dispatch [descriptor] ;;
  ret VUndef.

(** Modelled from the spec: the action creator of the scenario,
    [setCount: (n) => ({ type: "SET_COUNT", payload: n })]; the repository
    has no such function. *)
Definition setCount : fn St :=
  mkFn 2%positive
       (fun arguments s => (Ret (SET_COUNT (arg 0 arguments)), s)).

End Fixtures.

(** Modelled from the spec: the recording stub [d] of the scenarios. Its
    state is the list of argument lists it was called with; it returns
    [undefined]. *)
Definition recording_stub : fn (list (list value)) :=
  mkFn 3%positive
       (fun arguments recorded => (Ret VUndef, recorded ++ [arguments])).

(** A dispatch that rejects every descriptor, for the error path. *)
Definition rejecting_dispatch : fn (list (list value)) :=
  mkFn 4%positive (fun _ recorded => (Throw (VStr "rejected"), recorded)).

(** A dispatch in the manner of a plain store: it records the call and
    returns the descriptor it was given. *)
Definition echoing_dispatch : fn (list (list value)) :=
  mkFn 5%positive
       (fun arguments recorded => (Ret (arg 0 arguments), recorded ++ [arguments])).

(** The map and the starting world of the worked examples: nothing
    recorded, nothing called, closures allocated from reference 10 on. *)
Definition example_map : list (string * fn (list (list value))) :=
  [("setCount", setCount); ("incrementCount", incrementCount)].

Definition example_world : world (list (list value)) :=
  mkWorld [] [] 10%positive.

(** ** The rest of the components *)

Section Components.

Context {St : Type}.

(** [v.length]: the number of elements of an array, the number of code
    units of a string (strings are kept as sequences of code units), an
    own property of an object; a TypeError on [undefined] and [null]. *)
Definition get_length (v : value) : Eff St value :=
  match v with
  | VUndef | VNull => throw (VTypeError "cannot read properties")
  | VArr elems => ret (VNum (Z.of_nat (List.length elems)))
  | VStr s => ret (VNum (Z.of_nat (String.length s)))
  | VObj fields => ret (own_or_undefined "length" fields)
  | _ => ret VUndef
  end.

(** The expression that [render] of src/App.js puts in the paragraph:
    [this.props.items.length]. *)
Definition App_render_count (props : value) : Eff St value :=
  items <- get_prop props "items" ;;
  get_length items.

(** The Counter component up to its paragraph:
    [const items = useSelector((state) => state.items);] and
    [items.length]. *)
Definition Counter_render_count (state : value) : Eff St value :=
  items <- selectItems state ;;
  get_length items.

(** The first Counter of the lesson:
    [function handleOnClick() { dispatch({ type: "count/increment" }); }] *)
Definition Counter_handleOnClick_inline (dispatch : fn St) : Eff St value :=
  _ <- invoke dispatch [VObj [("type", VStr "count/increment")]] ;;
  ret VUndef.

(** The first attempt of the README, without [dispatch]:
    [function mapDispatchToProps(){ return {addItem: addItem} }] *)
Definition mapDispatchToProps_unbound (addItem : fn St)
    : Eff St (list (string * callable)) :=
  ret [("addItem", FnObj addItem)].

(** [props[key](...args)] on props whose fields are function objects or
    wrappers; calling a missing property is a TypeError. *)
Definition call_prop (props : list (string * callable)) (key : string)
    (args : list value) : Eff St value :=
  match get_own key props with
  | Some (FnObj f) => invoke f args
  | Some (Bound c) => c_code c args
  | None => throw (VTypeError "is not a function")
  end.

(** [handleOnClick(){ this.props.addItem() }] on such props. *)
Definition handleOnClick_callable (props : list (string * callable))
    : Eff St value :=
  _ <- call_prop props "addItem" [] ;;
  ret VUndef.

End Components.

(** An action creator that rejects its arguments, for the error path. *)
Definition failing_creator : fn (list (list value)) :=
  mkFn 6%positive (fun _ recorded => (Throw (VStr "invalid"), recorded)).

(** * Properties *)

Section Laws.

Context {St : Type}.
Implicit Types (M : list (string * fn St)) (D ac : fn St) (w : world St).
Implicit Types (bound : list (string * closure St)) (A : list value).

(** ** The monad and the primitive operations *)

Lemma and_then_ret {X Y} (a : X) (k : X -> Eff St Y) w :
  (x <- ret a ;; k x) w = k a w.
Proof. reflexivity. Qed.

Lemma invoke_eq (f : fn St) A w :
  invoke f A w =
  (fst (fn_body f A (w_state w)),
   mkWorld (snd (fn_body f A (w_state w)))
           (w_calls w ++ [Call (fn_ref f) A]) (w_next w)).
Proof. unfold invoke. now destruct (fn_body f A (w_state w)). Qed.

(** The wrapper, case by case on what the action creator does. *)
Lemma bindActionCreator_returns ac D A w d s1 :
  fn_body ac A (w_state w) = (Ret d, s1) ->
  bindActionCreator ac D A w =
  (fst (fn_body D [d] s1),
   mkWorld (snd (fn_body D [d] s1))
           (w_calls w ++ [Call (fn_ref ac) A; Call (fn_ref D) [d]])
           (w_next w)).
Proof.
  intros Hac. unfold bindActionCreator, and_then.
  rewrite invoke_eq, Hac. cbn [fst snd]. rewrite invoke_eq. cbn.
  now rewrite <- app_assoc.
Qed.

Lemma bindActionCreator_throws ac D A w e s1 :
  fn_body ac A (w_state w) = (Throw e, s1) ->
  bindActionCreator ac D A w =
  (Throw e, mkWorld s1 (w_calls w ++ [Call (fn_ref ac) A]) (w_next w)).
Proof.
  intros Hac. unfold bindActionCreator, and_then.
  now rewrite invoke_eq, Hac.
Qed.

(** ** What binding constructs *)

Lemma bindActionCreators_run M D : forall w,
  exists bound w',
    bindActionCreators M D w = (Ret bound, w') /\
    Forall2 (binds D) M bound /\
    w_state w' = w_state w /\ w_calls w' = w_calls w /\
    Forall (fun b => (w_next w <= c_ref (snd b) < w_next w')%positive) bound /\
    (w_next w <= w_next w')%positive.
Proof.
  induction M as [|[key ac] rest IH]; intros w; cbn [bindActionCreators].
  - exists [], w. repeat split; auto; lia.
  - unfold and_then at 1. cbn [new_closure].
    set (w0 := mkWorld (w_state w) (w_calls w) (Pos.succ (w_next w))).
    destruct (IH w0) as (bound & w' & Hrun & Hall & Hst & Hlog & Hrefs & Hle).
    unfold and_then at 1. rewrite Hrun.
    exists ((key, mkClosure (w_next w) (bindActionCreator ac D)) :: bound), w'.
    cbn [w0 w_state w_calls w_next] in *.
    repeat split; auto.
    + constructor; [|exact Hall]. now split.
    + constructor.
      * cbn. lia.
      * eapply Forall_impl; [|exact Hrefs]. cbn. intros b Hb. lia.
    + lia.
Qed.

Lemma binds_get_own D M bound :
  Forall2 (binds D) M bound ->
  forall k,
    match get_own k M with
    | Some ac =>
        exists c, get_own k bound = Some c /\
                  c_code c = bindActionCreator ac D
    | None => get_own k bound = None
    end.
Proof.
  induction 1 as [|[k1 ac1] [k2 c2] M' bound' [Hk Hc] _ IH]; intros k.
  - reflexivity.
  - cbn in Hk, Hc. subst k2. cbn [get_own].
    destruct (String.eqb k k1).
    + now exists c2.
    + apply IH.
Qed.

Lemma binds_keys D M bound :
  Forall2 (binds D) M bound -> keys bound = keys M.
Proof.
  unfold keys.
  induction 1 as [|e b M' bound' [Hk _] _ IH]; cbn; congruence.
Qed.

Lemma get_own_in_keys {T} (o : list (string * T)) k :
  In k (keys o) <-> exists v, get_own k o = Some v.
Proof.
  induction o as [|[k' v] o IH]; cbn.
  - split; [tauto | now intros [v Hv]].
  - destruct (String.eqb_spec k k') as [->|Hne].
    + split; [now exists v | now left].
    + rewrite <- IH. split; [intros [Heq|Hin]; [congruence|exact Hin] | now right].
Qed.

(** ** Counting calls in the log *)

Lemma calls_to_app r (l1 l2 : list call) :
  calls_to r (l1 ++ l2) = calls_to r l1 + calls_to r l2.
Proof. unfold calls_to. now rewrite filter_app, length_app. Qed.

Lemma calls_to_same r A : calls_to r [Call r A] = 1.
Proof. unfold calls_to. cbn. now rewrite Pos.eqb_refl. Qed.

Lemma calls_to_other r r' A : r <> r' -> calls_to r [Call r' A] = 0.
Proof.
  intros Hne. unfold calls_to. cbn.
  destruct (Pos.eqb_spec r r'); [contradiction | reflexivity].
Qed.

(** One invocation of a wrapper logs the call of the action creator and, if
    the creator returned, the call of [dispatch], and nothing else. *)
Lemma bindActionCreator_log ac D A w :
  exists tail,
    w_calls (snd (bindActionCreator ac D A w)) =
    w_calls w ++ Call (fn_ref ac) A :: tail /\
    (tail = [] \/ exists d, tail = [Call (fn_ref D) [d]]).
Proof.
  destruct (fn_body ac A (w_state w)) as [[d|e] s1] eqn:Hac.
  - rewrite (bindActionCreator_returns _ _ _ _ _ _ Hac). cbn.
    exists [Call (fn_ref D) [d]]. split; [reflexivity|]. right. now exists d.
  - rewrite (bindActionCreator_throws _ _ _ _ _ _ Hac). cbn.
    exists []. split; [reflexivity|]. now left.
Qed.

Lemma bindActionCreator_counts_creator ac D A w :
  fn_ref ac <> fn_ref D ->
  calls_to (fn_ref ac) (w_calls (snd (bindActionCreator ac D A w))) =
  S (calls_to (fn_ref ac) (w_calls w)).
Proof.
  intros Hne.
  destruct (bindActionCreator_log ac D A w) as (tail & -> & Htail).
  change (Call (fn_ref ac) A :: tail) with ([Call (fn_ref ac) A] ++ tail).
  rewrite !calls_to_app, calls_to_same.
  destruct Htail as [->|[d ->]].
  - cbn. lia.
  - rewrite (calls_to_other _ _ _ Hne). lia.
Qed.

Lemma invocations_count_creator ac D A n : forall w,
  fn_ref ac <> fn_ref D ->
  calls_to (fn_ref ac) (w_calls (invocations n (bindActionCreator ac D A) w)) =
  calls_to (fn_ref ac) (w_calls w) + n.
Proof.
  induction n as [|n IH]; intros w Hne; cbn [invocations].
  - lia.
  - rewrite IH by exact Hne.
    rewrite bindActionCreator_counts_creator by exact Hne. lia.
Qed.

(** Binding always returns, and the wrapper of a key of the map is found
    under that key. *)
Lemma bound_wrapper M D w k ac :
  get_own k M = Some ac ->
  exists bound w1 c,
    bindActionCreators M D w = (Ret bound, w1) /\
    get_own k bound = Some c /\
    c_code c = bindActionCreator ac D.
Proof.
  intros Hk.
  destruct (bindActionCreators_run M D w) as (bound & w1 & Hrun & Hall & _).
  pose proof (binds_get_own D M bound Hall k) as Hget. rewrite Hk in Hget.
  destruct Hget as (c & Hc & Hcode).
  now exists bound, w1, c.
Qed.

End Laws.

(** ** The lesson's variants of the component *)

Section Variants.

Context {St : Type}.
Implicit Types (D addItem : fn St) (w : world St) (A : list value).

Lemma and_then_assoc {X Y Z} (c : Eff St X) (k : X -> Eff St Y)
    (h : Y -> Eff St Z) w :
  (y <- (x <- c ;; k x) ;; h y) w = (x <- c ;; y <- k x ;; h y) w.
Proof. unfold and_then. now destruct (c w) as [[a|e] w1]. Qed.

(** [mapDispatchToProps] of src/App.js returns one prop, [addItem], the
    wrapper around the action creator. *)
Lemma mapDispatchToProps_run addItem D w :
  mapDispatchToProps addItem D w =
  (Ret [("addItem", mkClosure (w_next w) (bindActionCreator addItem D))],
   mkWorld (w_state w) (w_calls w) (Pos.succ (w_next w))).
Proof. reflexivity. Qed.

(** Clicking through the bound prop does what the click handler of
    src/App.js does through [this.props.store.dispatch]. *)
Lemma handleOnClick_props_same_as_store addItem D w w2 :
  handleOnClick_props (returned (mapDispatchToProps addItem D w)) w2 =
  handleOnClick addItem D w2.
Proof.
  cbn [mapDispatchToProps bindActionCreators returned fst].
  unfold handleOnClick_props, handleOnClick, call_method. cbn.
  unfold bindActionCreator. now rewrite and_then_assoc.
Qed.

(** The hand-written wrapper of the README makes the calls of the bound
    one when invoked without arguments, but completes with [undefined]
    where the bound one hands on what [dispatch] returned. *)
Lemma arrow_wrapper_same_calls addItem D w w2 d s1 r s2 :
  fn_body addItem [] (w_state w2) = (Ret d, s1) ->
  fn_body D [d] s1 = (Ret r, s2) ->
  exists c,
    get_own "addItem" (returned (mapDispatchToProps_arrow addItem D w))
      = Some c /\
    snd (c_code c [] w2) = snd (bindActionCreator addItem D [] w2) /\
    fst (c_code c [] w2) = Ret VUndef /\
    fst (bindActionCreator addItem D [] w2) = Ret r.
Proof.
  intros Hac HD. eexists. split; [reflexivity|]. cbn [c_code].
  rewrite (bindActionCreator_returns _ _ _ _ _ _ Hac), HD.
  unfold and_then. rewrite !invoke_eq, Hac. cbn [fst snd w_state].
  rewrite invoke_eq. cbn [w_state]. rewrite HD. cbn.
  now rewrite <- app_assoc.
Qed.

(** The hand-written wrapper drops the arguments it is called with. *)
Lemma arrow_wrapper_ignores_arguments addItem D w A w2 :
  exists c,
    get_own "addItem" (returned (mapDispatchToProps_arrow addItem D w))
      = Some c /\
    c_code c A w2 = c_code c [] w2.
Proof. eexists. split; reflexivity. Qed.

(** The click handler of the Counter component dispatches
    [{ type: "count/increment" }]. *)
Lemma Counter_handleOnClick_log D w :
  w_calls (snd (Counter_handleOnClick D w)) =
  w_calls w ++ [Call 1%positive [];
                Call (fn_ref D) [VObj [("type", VStr "count/increment")]]].
Proof.
  unfold Counter_handleOnClick, and_then. rewrite invoke_eq. cbn.
  rewrite invoke_eq. cbn.
  destruct (fn_body D [VObj [("type", VStr "count/increment")]] (w_state w))
    as [[r|e] s]; cbn; now rewrite <- app_assoc.
Qed.

(** [state.items] on [undefined] or [null] is a TypeError. *)
Lemma mapStateToProps_nullish (state : value) w :
  state = VUndef \/ state = VNull ->
  mapStateToProps state w = (Throw (VTypeError "cannot read properties"), w).
Proof. now intros [-> | ->]. Qed.

(** Binding again after a first binding allocates new function objects:
    no wrapper of the second map has the reference of one of the first. *)
Lemma rebinding_allocates_new_wrappers (M : list (string * fn St)) D w :
  exists b1 w1 b2 w2,
    bindActionCreators M D w = (Ret b1, w1) /\
    bindActionCreators M D w1 = (Ret b2, w2) /\
    forall e1 e2, In e1 b1 -> In e2 b2 -> c_ref (snd e1) <> c_ref (snd e2).
Proof.
  destruct (bindActionCreators_run M D w)
    as (b1 & w1 & Hrun1 & _ & _ & _ & Hr1 & _).
  destruct (bindActionCreators_run M D w1)
    as (b2 & w2 & Hrun2 & _ & _ & _ & Hr2 & _).
  exists b1, w1, b2, w2. split; [exact Hrun1 | split; [exact Hrun2 |]].
  intros e1 e2 H1 H2.
  rewrite Forall_forall in Hr1, Hr2.
  specialize (Hr1 e1 H1). specialize (Hr2 e2 H2). lia.
Qed.

End Variants.

(** * The claims of the specification *)

Section Claims.

Context {St : Type}.
Implicit Types (M : list (string * fn St)) (D ac : fn St) (w : world St).
Implicit Types (bound : list (string * closure St)) (A : list value).

(** C1. For every action-creator map [M], dispatch function [D], key [k]
    of [M] and argument list [A]: binding returns a map with a wrapper
    under [k]; one invocation of the wrapper with [A], when the action
    creator returns the descriptor [d], makes exactly two calls, first
    [M[k]] with [A] and then [D] with [d]; and nothing is cached: [n]
    invocations call [M[k]] [n] times (counted by the reference of the
    function object, [M[k]] and [D] being different objects). *)
Theorem wrapper_calls_creator_then_dispatch M D w k ac :
  get_own k M = Some ac ->
  exists bound w1 c,
    bindActionCreators M D w = (Ret bound, w1) /\
    get_own k bound = Some c /\
    (forall A w2 d s1,
        fn_body ac A (w_state w2) = (Ret d, s1) ->
        w_calls (snd (c_code c A w2)) =
        w_calls w2 ++ [Call (fn_ref ac) A; Call (fn_ref D) [d]]) /\
    (fn_ref ac <> fn_ref D ->
     forall n A w2,
        calls_to (fn_ref ac) (w_calls (invocations n (c_code c A) w2)) =
        calls_to (fn_ref ac) (w_calls w2) + n).
Proof.
  intros Hk.
  destruct (bound_wrapper M D w k ac Hk) as (bound & w1 & c & Hrun & Hc & Hcode).
  exists bound, w1, c. repeat split; try assumption.
  - intros A w2 d s1 Hac. rewrite Hcode.
    now rewrite (bindActionCreator_returns _ _ _ _ _ _ Hac).
  - intros Hne n A w2. rewrite Hcode.
    now apply invocations_count_creator.
Qed.

(** C2. For every action-creator map [M] and dispatch function [D], the
    keys of the bound map are the keys of [M], and every key of [M] maps
    to a wrapper: a function whose code is the README's wrapper around
    [M[k]] and [D]. *)
Theorem bound_map_has_the_keys_of_the_map M D w :
  exists bound w1,
    bindActionCreators M D w = (Ret bound, w1) /\
    keys bound = keys M /\
    (forall k, In k (keys bound) <-> In k (keys M)) /\
    (forall k, In k (keys M) ->
       exists ac c, get_own k M = Some ac /\ get_own k bound = Some c /\
                    c_code c = bindActionCreator ac D).
Proof.
  destruct (bindActionCreators_run M D w) as (bound & w1 & Hrun & Hall & _).
  exists bound, w1. pose proof (binds_keys D M bound Hall) as Hkeys.
  repeat split; try assumption.
  - now rewrite Hkeys.
  - now rewrite Hkeys.
  - intros k Hin. apply get_own_in_keys in Hin. destruct Hin as [ac Hac].
    pose proof (binds_get_own D M bound Hall k) as Hget. rewrite Hac in Hget.
    destruct Hget as (c & Hc & Hcode). now exists ac, c.
Qed.

(** C3. For every [M], [D], key [k] and arguments [A], the completion of
    the bound wrapper is the completion of the call [D(M[k](A))]: what
    [dispatch] returns (or throws) is handed on as it is, not the raw
    descriptor and not [undefined]; the outside state is the one that call
    leaves. *)
Theorem wrapper_returns_what_dispatch_returns M D w k ac :
  get_own k M = Some ac ->
  exists bound w1 c,
    bindActionCreators M D w = (Ret bound, w1) /\
    get_own k bound = Some c /\
    forall A w2 d s1,
      fn_body ac A (w_state w2) = (Ret d, s1) ->
      fst (c_code c A w2) = fst (fn_body D [d] s1) /\
      w_state (snd (c_code c A w2)) = snd (fn_body D [d] s1).
Proof.
  intros Hk.
  destruct (bound_wrapper M D w k ac Hk) as (bound & w1 & c & Hrun & Hc & Hcode).
  exists bound, w1, c. split; [exact Hrun | split; [exact Hc |]].
  intros A w2 d s1 Hac.
  rewrite Hcode, (bindActionCreator_returns _ _ _ _ _ _ Hac). now split.
Qed.

(** C4. If [D] throws [e] on the descriptor that [M[k](A)] produced, the
    bound wrapper throws the same [e]; the log shows one call of [M[k]]
    followed by the one call of [D], so nothing was retried. *)
Theorem wrapper_rethrows_dispatch_error M D w k ac :
  get_own k M = Some ac ->
  exists bound w1 c,
    bindActionCreators M D w = (Ret bound, w1) /\
    get_own k bound = Some c /\
    forall A w2 d s1 e s2,
      fn_body ac A (w_state w2) = (Ret d, s1) ->
      fn_body D [d] s1 = (Throw e, s2) ->
      c_code c A w2 =
      (Throw e,
       mkWorld s2
               (w_calls w2 ++ [Call (fn_ref ac) A; Call (fn_ref D) [d]])
               (w_next w2)).
Proof.
  intros Hk.
  destruct (bound_wrapper M D w k ac Hk) as (bound & w1 & c & Hrun & Hc & Hcode).
  exists bound, w1, c. repeat split; try assumption.
  intros A w2 d s1 e s2 Hac HD.
  now rewrite Hcode, (bindActionCreator_returns _ _ _ _ _ _ Hac), HD.
Qed.

(** C5. Without a second input the connecting layer gives the consumer one
    field, [dispatch], holding the container's dispatch function object
    itself (same reference, same body): nothing is bound, no wrapper is
    allocated, nothing is called. *)
Theorem default_props_expose_raw_dispatch D w :
  dispatchProps None D w = (Ret [("dispatch", FnObj D)], w).
Proof. reflexivity. Qed.

(** C6. Handing the action-creator map to the connecting layer is the same
    as handing it a function that calls [bindActionCreators] with that map
    and the dispatch function it receives, as [mapDispatchToProps] of
    src/App.js does for [{addItem: addItem}]: from every world both modes
    return the same props, so under every key the wrappers make the same
    calls with the same completion. *)
Theorem object_mode_is_explicit_binding M D w :
  exists props w1,
    dispatchProps (Some (ActionCreatorMap M)) D w = (Ret props, w1) /\
    dispatchProps (Some (BinderFunction (bindActionCreators M))) D w =
      (Ret props, w1) /\
    keys props = keys M /\
    (forall k ac, get_own k M = Some ac ->
       exists c, get_own k props = Some (Bound c) /\
                 forall A w2, c_code c A w2 = bindActionCreator ac D A w2) /\
    (forall addItem,
       M = [("addItem", addItem)] ->
       dispatchProps (Some (BinderFunction (mapDispatchToProps addItem))) D w =
         (Ret props, w1)).
Proof.
  destruct (bindActionCreators_run M D w) as (bound & w1 & Hrun & Hall & _).
  exists (as_props bound), w1.
  assert (Hobj : dispatchProps (Some (ActionCreatorMap M)) D w =
                 (Ret (as_props bound), w1)).
  { cbn [dispatchProps]. unfold and_then. now rewrite Hrun. }
  repeat split.
  - exact Hobj.
  - exact Hobj.
  - rewrite <- (binds_keys D M bound Hall). unfold keys, as_props.
    rewrite map_map. now apply map_ext.
  - intros k ac Hk.
    pose proof (binds_get_own D M bound Hall k) as Hget. rewrite Hk in Hget.
    destruct Hget as (c & Hc & Hcode). exists c. split.
    + clear -Hc. induction bound as [|[k' c'] bound IH]; [discriminate|].
      cbn in *. destruct (String.eqb k k'); [congruence | now apply IH].
    + intros A w2. now rewrite Hcode.
  - intros addItem ->. exact Hobj.
Qed.

(** C7. Binding the same map to the same dispatch function twice, from
    whatever worlds, gives two maps with the same keys whose wrappers
    under each key have the same behaviour: for all arguments and from
    every world the same calls, the same outside state and the same
    completion. *)
Theorem rebinding_gives_equivalent_wrappers M D w w' :
  exists b1 w1 b2 w2,
    bindActionCreators M D w = (Ret b1, w1) /\
    bindActionCreators M D w' = (Ret b2, w2) /\
    keys b1 = keys b2 /\
    forall k,
      match get_own k b1, get_own k b2 with
      | Some c1, Some c2 => forall A w0, c_code c1 A w0 = c_code c2 A w0
      | None, None => ~ In k (keys M)
      | _, _ => False
      end.
Proof.
  destruct (bindActionCreators_run M D w) as (b1 & w1 & Hrun1 & Hall1 & _).
  destruct (bindActionCreators_run M D w') as (b2 & w2 & Hrun2 & Hall2 & _).
  exists b1, w1, b2, w2. repeat split; try assumption.
  - now rewrite (binds_keys D M b1 Hall1), (binds_keys D M b2 Hall2).
  - intros k.
    pose proof (binds_get_own D M b1 Hall1 k) as H1.
    pose proof (binds_get_own D M b2 Hall2 k) as H2.
    destruct (get_own k M) as [ac|] eqn:Hk.
    + destruct H1 as (c1 & -> & Hc1), H2 as (c2 & -> & Hc2).
      intros A w0. now rewrite Hc1, Hc2.
    + rewrite H1, H2. intros Hin. apply get_own_in_keys in Hin.
      destruct Hin as [ac Hac]. congruence.
Qed.

(** C8. Constructing the bound map has no side effect: it always returns,
    it calls neither [D] nor an action creator (the call log is as
    before) and leaves the outside state as it was; only function objects
    are allocated. The outside state changes when a wrapper is invoked
    later, and then, the action creator being pure, by the call of [D]
    alone. *)
Theorem binding_has_no_side_effect M D w :
  exists bound w1,
    bindActionCreators M D w = (Ret bound, w1) /\
    w_state w1 = w_state w /\
    w_calls w1 = w_calls w /\
    (forall k ac, get_own k M = Some ac ->
       exists c, get_own k bound = Some c /\
         forall A w2 d,
           fn_body ac A (w_state w2) = (Ret d, w_state w2) ->
           w_state (snd (c_code c A w2)) =
           snd (fn_body D [d] (w_state w2))).
Proof.
  destruct (bindActionCreators_run M D w)
    as (bound & w1 & Hrun & Hall & Hst & Hlog & _).
  exists bound, w1. repeat split; try assumption.
  intros k ac Hk.
  pose proof (binds_get_own D M bound Hall k) as Hget. rewrite Hk in Hget.
  destruct Hget as (c & Hc & Hcode). exists c. split; [exact Hc|].
  intros A w2 d Hac.
  now rewrite Hcode, (bindActionCreator_returns _ _ _ _ _ _ Hac).
Qed.

(** C10. [mapStateToProps] is a pure projection: for every store state
    that is an object (anything but [undefined] and [null], on which
    [state.items] throws) it returns an object with the one key [items]
    holding the state's [items] value as it is; it calls nothing and
    changes nothing, and two states with the same [items] give the same
    result. *)
Theorem mapStateToProps_projects_items (state : value) w :
  state <> VUndef -> state <> VNull ->
  exists items,
    mapStateToProps state w = (Ret (VObj [("items", items)]), w) /\
    selectItems state w = (Ret items, w) /\
    (forall fields, state = VObj fields ->
       items = own_or_undefined "items" fields) /\
    (forall fields fields',
       state = VObj fields ->
       get_own "items" fields' = get_own "items" fields ->
       mapStateToProps (VObj fields') w = mapStateToProps state w).
Proof.
  intros Hu Hn.
  destruct state as [| |b|n|s|elems|fields|msg]; try contradiction;
    try (exists VUndef; repeat split; intros; discriminate).
  exists (own_or_undefined "items" fields). repeat split.
  - intros fields' [= <-]. reflexivity.
  - intros f1 f2 [= <-] Heq. unfold mapStateToProps, get_prop, own_or_undefined.
    now rewrite Heq.
Qed.

End Claims.

(** ** The scenarios, on the recording stub *)

(** C9. Arguments are forwarded whole and unchecked: whatever the argument
    list [A], the wrapper bound for
    [setCount: (n) => ({ type: "SET_COUNT", payload: n })] calls [setCount]
    with [A] and the recording stub once with the resulting descriptor; in
    particular [bound.setCount(5)] makes the stub record exactly one call,
    with [{ type: "SET_COUNT", payload: 5 }]. *)
Theorem setCount_scenario (w : world (list (list value))) :
  exists bound w1 c,
    bindActionCreators [("setCount", setCount)] recording_stub w =
      (Ret bound, w1) /\
    get_own "setCount" bound = Some c /\
    (forall A w2,
        c_code c A w2 =
        (Ret VUndef,
         mkWorld (w_state w2 ++ [[SET_COUNT (arg 0 A)]])
                 (w_calls w2 ++ [Call (fn_ref (@setCount (list (list value)))) A;
                                 Call (fn_ref recording_stub)
                                      [SET_COUNT (arg 0 A)]])
                 (w_next w2))) /\
    c_code c [VNum 5] w1 =
      (Ret VUndef,
       mkWorld (w_state w ++
                  [[VObj [("type", VStr "SET_COUNT"); ("payload", VNum 5)]]])
               (w_calls w ++
                  [Call 2%positive [VNum 5];
                   Call 3%positive
                     [VObj [("type", VStr "SET_COUNT");
                            ("payload", VNum 5)]]])
               (w_next w1)).
Proof.
  destruct (bound_wrapper [("setCount", setCount)] recording_stub w
                          "setCount" setCount eq_refl)
    as (bound & w1 & c & Hrun & Hc & Hcode).
  assert (Hall : forall A w2,
             c_code c A w2 =
             (Ret VUndef,
              mkWorld (w_state w2 ++ [[SET_COUNT (arg 0 A)]])
                      (w_calls w2 ++
                         [Call (fn_ref (@setCount (list (list value)))) A;
                          Call (fn_ref recording_stub) [SET_COUNT (arg 0 A)]])
                      (w_next w2))).
  { intros A w2. rewrite Hcode.
    now rewrite (bindActionCreator_returns setCount recording_stub A w2
                   (SET_COUNT (arg 0 A)) (w_state w2) eq_refl). }
  exists bound, w1, c. split; [exact Hrun | split; [exact Hc | split]].
  - exact Hall.
  - rewrite Hall. cbn in Hrun. injection Hrun as _ <-. reflexivity.
Qed.

(** ** Worked instances *)

(** [bound.setCount(5)] on the example map: [setCount] and the stub are
    each called once, and three invocations call [setCount] three times. *)
Lemma wrapper_calls_creator_then_dispatch_witness :
  get_own "setCount" example_map = Some setCount /\
  exists bound w1 c,
    bindActionCreators example_map recording_stub example_world =
      (Ret bound, w1) /\
    get_own "setCount" bound = Some c /\
    w_calls (snd (c_code c [VNum 5] example_world)) =
      [Call 2%positive [VNum 5]; Call 3%positive [SET_COUNT (VNum 5)]] /\
    calls_to 2%positive
             (w_calls (invocations 3 (c_code c [VNum 5]) example_world)) = 3.
Proof.
  split; [reflexivity |].
  destruct (wrapper_calls_creator_then_dispatch
              example_map recording_stub example_world "setCount" setCount
              eq_refl)
    as (bound & w1 & c & Hrun & Hc & Hone & Hmany).
  exists bound, w1, c.
  split; [exact Hrun | split; [exact Hc | split]].
  - exact (Hone [VNum 5] example_world (SET_COUNT (VNum 5)) [] eq_refl).
  - refine (Hmany _ 3 [VNum 5] example_world). cbn. discriminate.
Defined.

(** The wrapper hands on the descriptor that the echoing dispatch returns. *)
Lemma wrapper_returns_what_dispatch_returns_witness :
  get_own "setCount" example_map = Some setCount /\
  exists bound w1 c,
    bindActionCreators example_map echoing_dispatch example_world =
      (Ret bound, w1) /\
    get_own "setCount" bound = Some c /\
    fst (c_code c [VNum 5] example_world) = Ret (SET_COUNT (VNum 5)) /\
    w_state (snd (c_code c [VNum 5] example_world)) = [[SET_COUNT (VNum 5)]].
Proof.
  split; [reflexivity |].
  destruct (wrapper_returns_what_dispatch_returns
              example_map echoing_dispatch example_world "setCount" setCount
              eq_refl)
    as (bound & w1 & c & Hrun & Hc & Hres).
  exists bound, w1, c.
  split; [exact Hrun | split; [exact Hc |]].
  exact (Hres [VNum 5] example_world (SET_COUNT (VNum 5)) [] eq_refl).
Defined.

(** The wrapper throws what the rejecting dispatch throws. *)
Lemma wrapper_rethrows_dispatch_error_witness :
  get_own "incrementCount" example_map = Some incrementCount /\
  exists bound w1 c,
    bindActionCreators example_map rejecting_dispatch example_world =
      (Ret bound, w1) /\
    get_own "incrementCount" bound = Some c /\
    c_code c [] example_world =
      (Throw (VStr "rejected"),
       mkWorld []
               [Call 1%positive [];
                Call 4%positive [VObj [("type", VStr "count/increment")]]]
               10%positive).
Proof.
  split; [reflexivity |].
  destruct (wrapper_rethrows_dispatch_error
              example_map rejecting_dispatch example_world
              "incrementCount" incrementCount eq_refl)
    as (bound & w1 & c & Hrun & Hc & Hthrow).
  exists bound, w1, c.
  split; [exact Hrun | split; [exact Hc |]].
  exact (Hthrow [] example_world (VObj [("type", VStr "count/increment")]) []
                (VStr "rejected") [] eq_refl eq_refl).
Defined.

(** Object mode and [mapDispatchToProps] of src/App.js on one map. *)
Lemma object_mode_is_explicit_binding_witness :
  exists props w1,
    dispatchProps (Some (ActionCreatorMap [("addItem", incrementCount)]))
                  recording_stub example_world = (Ret props, w1) /\
    dispatchProps (Some (BinderFunction (mapDispatchToProps incrementCount)))
                  recording_stub example_world = (Ret props, w1) /\
    exists c, get_own "addItem" props = Some (Bound c) /\
              forall A w2,
                c_code c A w2 =
                bindActionCreator incrementCount recording_stub A w2.
Proof.
  destruct (object_mode_is_explicit_binding
              [("addItem", incrementCount)] recording_stub example_world)
    as (props & w1 & Hobj & _ & _ & Hwrap & Hfun).
  exists props, w1.
  split; [exact Hobj | split].
  - exact (Hfun incrementCount eq_refl).
  - exact (Hwrap "addItem" incrementCount eq_refl).
Defined.

(** Binding the example map leaves the world alone; invoking the wrapper
    changes the outside state by what the stub records. *)
Lemma binding_has_no_side_effect_witness :
  exists bound w1,
    bindActionCreators example_map recording_stub example_world =
      (Ret bound, w1) /\
    w_state w1 = [] /\
    w_calls w1 = [] /\
    exists c, get_own "setCount" bound = Some c /\
              w_state (snd (c_code c [VNum 5] example_world)) =
              [[SET_COUNT (VNum 5)]].
Proof.
  destruct (binding_has_no_side_effect
              example_map recording_stub example_world)
    as (bound & w1 & Hrun & Hst & Hlog & Hwrap).
  exists bound, w1.
  split; [exact Hrun | split; [exact Hst | split; [exact Hlog |]]].
  destruct (Hwrap "setCount" setCount eq_refl) as (c & Hc & Hinv).
  exists c. split; [exact Hc |].
  exact (Hinv [VNum 5] example_world (SET_COUNT (VNum 5)) eq_refl).
Defined.

(** [mapStateToProps] on a state with one item and another field. *)
Lemma mapStateToProps_projects_items_witness :
  exists items,
    mapStateToProps
      (VObj [("count", VNum 7); ("items", VArr [VStr "a"])]) example_world =
      (Ret (VObj [("items", items)]), example_world) /\
    items = VArr [VStr "a"].
Proof.
  destruct (mapStateToProps_projects_items
              (VObj [("count", VNum 7); ("items", VArr [VStr "a"])])
              example_world)
    as (items & Hrun & _ & Hitems & _).
  - discriminate.
  - discriminate.
  - exists items. split; [exact Hrun |].
    exact (Hitems _ eq_refl).
Defined.

(** * Further properties of the components *)

Section Components_laws.

Context {St : Type}.
Implicit Types (M : list (string * fn St)) (D addItem ac : fn St).
Implicit Types (w : world St) (A : list value).

(** A handler that discards a result which is [undefined] already. *)
Lemma discard_undefined (c : Eff St value) w :
  (forall r w', c w = (Ret r, w') -> r = VUndef) ->
  (_ <- c ;; ret VUndef) w = c w.
Proof.
  intros Hc. unfold and_then.
  destruct (c w) as [[r|e] w'] eqn:Hrun; [|reflexivity].
  now rewrite (Hc r w' eq_refl).
Qed.

(** The click handler of src/App.js, completion by completion. *)
Lemma handleOnClick_eq addItem D w :
  handleOnClick addItem D w =
  match fn_body addItem [] (w_state w) with
  | (Ret d, s1) =>
      (match fst (fn_body D [d] s1) with
       | Ret _ => Ret VUndef
       | Throw e => Throw e
       end,
       mkWorld (snd (fn_body D [d] s1))
               (w_calls w ++ [Call (fn_ref addItem) []; Call (fn_ref D) [d]])
               (w_next w))
  | (Throw e, s1) =>
      (Throw e, mkWorld s1 (w_calls w ++ [Call (fn_ref addItem) []]) (w_next w))
  end.
Proof.
  unfold handleOnClick, and_then. rewrite invoke_eq.
  destruct (fn_body addItem [] (w_state w)) as [[d|e] s1]; cbn [fst snd];
    [|reflexivity].
  rewrite invoke_eq. cbn [w_state w_calls w_next].
  rewrite <- app_assoc. cbn [app].
  now destruct (fn_body D [d] s1) as [[r|e] s2].
Qed.

(** X1. The props that [mapDispatchToProps] of src/App.js returns have the
    one key [addItem], and the handler that clicks through the prop,
    [this.props.addItem()], does from every world exactly what the handler
    of src/App.js does through [this.props.store.dispatch(addItem())]:
    same calls, same outside state, same completion. *)
Theorem click_through_prop_is_click_through_store addItem D w :
  exists props w1,
    mapDispatchToProps addItem D w = (Ret props, w1) /\
    keys props = ["addItem"] /\
    forall w2, handleOnClick_props props w2 = handleOnClick addItem D w2.
Proof.
  eexists _, _. split; [reflexivity | split; [reflexivity |]].
  intros w2.
  exact (handleOnClick_props_same_as_store addItem D w w2).
Qed.

(** X2. For the click handler [this.props.addItem()] the hand-written
    [mapDispatchToProps] of the README and the one of src/App.js that
    calls [bindActionCreators] are interchangeable: the handler passes no
    argument and drops the result, so both props give the same calls, the
    same outside state and the same completion. *)
Theorem handler_cannot_tell_arrow_from_bound addItem D w w' w2 :
  handleOnClick_props (returned (mapDispatchToProps_arrow addItem D w)) w2 =
  handleOnClick_props (returned (mapDispatchToProps addItem D w')) w2.
Proof.
  rewrite (handleOnClick_props_same_as_store addItem D w' w2).
  cbn [mapDispatchToProps_arrow returned fst and_then new_closure ret].
  unfold handleOnClick_props, call_method. cbn [get_own String.eqb].
  cbn [Ascii.eqb Bool.eqb c_code].
  change (and_then (and_then (invoke addItem [])
                     (fun d => and_then (invoke D [d]) (fun _ => ret VUndef)))
                   (fun _ => ret VUndef) w2 = handleOnClick addItem D w2).
  apply (discard_undefined (handleOnClick addItem D) w2).
  intros r w3 Hrun. rewrite handleOnClick_eq in Hrun.
  destruct (fn_body addItem [] (w_state w2)) as [[d|e] s1]; [|discriminate].
  destruct (fst (fn_body D [d] s1)); [|discriminate].
  now injection Hrun as <- _.
Qed.

(** X3. The hand-written wrapper of the README,
    [() => { dispatch(addItem()) }], differs from the wrapper that
    [bindActionCreators] makes in two ways only: whatever arguments it is
    called with, it leaves the world that the bound wrapper leaves when
    called with no argument, and where the bound wrapper returns what
    [dispatch] returned it returns [undefined]; a throw is the same
    throw. *)
Theorem arrow_wrapper_drops_arguments_and_result addItem D w :
  exists c,
    get_own "addItem" (returned (mapDispatchToProps_arrow addItem D w)) =
      Some c /\
    forall A w2,
      snd (c_code c A w2) = snd (bindActionCreator addItem D [] w2) /\
      fst (c_code c A w2) =
      match fst (bindActionCreator addItem D [] w2) with
      | Ret _ => Ret VUndef
      | Throw e => Throw e
      end.
Proof.
  eexists. split; [reflexivity |]. intros A w2. cbn [c_code].
  change (snd (handleOnClick addItem D w2) =
          snd (bindActionCreator addItem D [] w2) /\
          fst (handleOnClick addItem D w2) =
          match fst (bindActionCreator addItem D [] w2) with
          | Ret _ => Ret VUndef
          | Throw e => Throw e
          end).
  rewrite handleOnClick_eq.
  destruct (fn_body addItem [] (w_state w2)) as [[d|e] s1] eqn:Hac.
  - rewrite (bindActionCreator_returns _ _ _ _ _ _ Hac). now split.
  - rewrite (bindActionCreator_throws _ _ _ _ _ _ Hac). now split.
Qed.

(** X4. The click handler of src/App.js calls [addItem] exactly once,
    first and without arguments; it calls [dispatch] only when [addItem]
    returned, once, with the descriptor returned; an error of [addItem]
    is thrown on; and when the handler returns it returns [undefined],
    whatever [dispatch] returned. *)
Theorem handleOnClick_calls addItem D w :
  exists tail,
    w_calls (snd (handleOnClick addItem D w)) =
      w_calls w ++ Call (fn_ref addItem) [] :: tail /\
    (forall d s1, fn_body addItem [] (w_state w) = (Ret d, s1) ->
       tail = [Call (fn_ref D) [d]] /\
       w_state (snd (handleOnClick addItem D w)) = snd (fn_body D [d] s1)) /\
    (forall e s1, fn_body addItem [] (w_state w) = (Throw e, s1) ->
       tail = [] /\
       handleOnClick addItem D w =
       (Throw e,
        mkWorld s1 (w_calls w ++ [Call (fn_ref addItem) []]) (w_next w))) /\
    (forall r, fst (handleOnClick addItem D w) = Ret r -> r = VUndef).
Proof.
  rewrite handleOnClick_eq.
  destruct (fn_body addItem [] (w_state w)) as [[d|e] s1].
  - exists [Call (fn_ref D) [d]]. split; [reflexivity | split; [| split]].
    + intros d' s1' [= <- <-]. now split.
    + intros e s1' [=].
    + cbn [fst]. destruct (fst (fn_body D [d] s1)); intros r [=]. now subst.
  - exists []. split; [reflexivity | split; [| split]].
    + intros d s1' [=].
    + intros e' s1' [= <- <-]. now split.
    + intros r [=].
Qed.

(** X5. With the first attempt of the README, which returns
    [{addItem: addItem}] without [dispatch], a click calls the action
    creator and nothing else: the log grows by the one call of [addItem],
    the outside state is what the creator's body leaves, and no dispatch
    function (any function object other than [addItem]) is called. *)
Theorem unbound_prop_never_dispatches addItem w :
  exists props,
    mapDispatchToProps_unbound addItem w = (Ret props, w) /\
    forall w2,
      w_calls (snd (handleOnClick_callable props w2)) =
        w_calls w2 ++ [Call (fn_ref addItem) []] /\
      w_state (snd (handleOnClick_callable props w2)) =
        snd (fn_body addItem [] (w_state w2)) /\
      forall D, fn_ref D <> fn_ref addItem ->
        calls_to (fn_ref D) (w_calls (snd (handleOnClick_callable props w2))) =
        calls_to (fn_ref D) (w_calls w2).
Proof.
  eexists. split; [reflexivity |]. intros w2.
  assert (Hrun : snd (handleOnClick_callable [("addItem", FnObj addItem)] w2) =
                 mkWorld (snd (fn_body addItem [] (w_state w2)))
                         (w_calls w2 ++ [Call (fn_ref addItem) []])
                         (w_next w2)).
  { unfold handleOnClick_callable, call_prop, and_then. cbn [get_own].
    cbn [String.eqb Ascii.eqb Bool.eqb]. rewrite invoke_eq.
    now destruct (fst (fn_body addItem [] (w_state w2))). }
  rewrite Hrun. cbn [w_calls w_state]. repeat split.
  intros D Hne. rewrite calls_to_app, (calls_to_other _ _ _ Hne). lia.
Qed.

(** X6. If the action creator throws, the bound wrapper throws the same
    error and never reaches [dispatch]: the log grows by the call of the
    creator alone, and the outside state is the one the creator left. *)
Theorem wrapper_rethrows_creator_error M D w k ac :
  get_own k M = Some ac ->
  exists bound w1 c,
    bindActionCreators M D w = (Ret bound, w1) /\
    get_own k bound = Some c /\
    forall A w2 e s1,
      fn_body ac A (w_state w2) = (Throw e, s1) ->
      c_code c A w2 =
      (Throw e, mkWorld s1 (w_calls w2 ++ [Call (fn_ref ac) A]) (w_next w2)).
Proof.
  intros Hk.
  destruct (bound_wrapper M D w k ac Hk) as (bound & w1 & c & Hrun & Hc & Hcode).
  exists bound, w1, c. split; [exact Hrun | split; [exact Hc |]].
  intros A w2 e s1 Hac. rewrite Hcode.
  exact (bindActionCreator_throws _ _ _ _ _ _ Hac).
Qed.

(** X7. [n] clicks on the Counter's button make [n] rounds of the same two
    calls, [incrementCount()] and then [dispatch] with
    [{ type: "count/increment" }], and no other call, whatever [dispatch]
    does (also when it throws). *)
Theorem Counter_clicks_dispatch_each_time D n : forall w,
  w_calls (invocations n (Counter_handleOnClick D) w) =
  w_calls w ++
  List.concat (repeat [Call (fn_ref (@incrementCount St)) [];
                  Call (fn_ref D) [VObj [("type", VStr "count/increment")]]]
                 n).
Proof.
  induction n as [|n IH]; intros w; cbn [invocations repeat List.concat].
  - now rewrite app_nil_r.
  - rewrite IH, Counter_handleOnClick_log. cbn [fn_ref incrementCount].
    now rewrite <- app_assoc.
Qed.

(** X8. Moving the action object of the Counter into the action creator
    [incrementCount] changes nothing for the store: the handler with
    [dispatch(incrementCount())] completes as the handler with
    [dispatch({ type: "count/increment" })] does and leaves the same
    outside state; its log is the log of the other with the call of
    [incrementCount] put before the call of [dispatch]. *)
Theorem Counter_action_creator_refactoring D w :
  fst (Counter_handleOnClick D w) = fst (Counter_handleOnClick_inline D w) /\
  w_state (snd (Counter_handleOnClick D w)) =
    w_state (snd (Counter_handleOnClick_inline D w)) /\
  exists dispatched,
    w_calls (snd (Counter_handleOnClick_inline D w)) =
      w_calls w ++ [dispatched] /\
    w_calls (snd (Counter_handleOnClick D w)) =
      w_calls w ++ [Call (fn_ref (@incrementCount St)) []; dispatched].
Proof.
  unfold Counter_handleOnClick, Counter_handleOnClick_inline, and_then.
  rewrite !invoke_eq. cbn [fst snd incrementCount fn_body fn_ref].
  rewrite invoke_eq. cbn [w_state w_calls w_next].
  destruct (fn_body D [VObj [("type", VStr "count/increment")]] (w_state w))
    as [[r|e] s]; cbn [fst snd w_state w_calls];
    (split; [reflexivity | split; [reflexivity |]]);
    eexists; (split; [reflexivity |]); now rewrite <- app_assoc.
Qed.

(** X9. The two components show the same number: for every store state,
    [this.props.items.length] on the props that [mapStateToProps] makes
    completes as [items.length] does on what the selector of the Counter
    returns, with the same value or the same error. *)
Theorem App_and_Counter_show_the_same_count (state : value) w :
  (props <- mapStateToProps state ;; App_render_count props) w =
  Counter_render_count state w.
Proof.
  destruct state as [| |b|n|s|elems|fields|msg]; reflexivity.
Qed.

(** X10. What the paragraph shows: the number of elements when the state's
    [items] is an array (0 for the empty one); when the state is an object
    without [items], the selector returns [undefined] and reading [length]
    throws a TypeError. Nothing is called and the world is as before. *)
Theorem Counter_render_count_of_items (fields : list (string * value)) w :
  (forall elems,
      get_own "items" fields = Some (VArr elems) ->
      Counter_render_count (VObj fields) w =
      (Ret (VNum (Z.of_nat (List.length elems))), w)) /\
  (get_own "items" fields = None ->
      selectItems (VObj fields) w = (Ret VUndef, w) /\
      Counter_render_count (VObj fields) w =
      (Throw (VTypeError "cannot read properties"), w)).
Proof.
  unfold Counter_render_count, selectItems, get_prop, own_or_undefined, and_then.
  split.
  - intros elems Hitems. cbn [ret]. now rewrite Hitems.
  - intros Hnone. cbn [ret]. now rewrite Hnone.
Qed.

(** X11. If the map handed to [bindActionCreators] has no [addItem], the
    bound props have none either, and the click handler
    [this.props.addItem()] throws a TypeError without calling anything or
    touching the outside state. *)
Theorem click_without_addItem_throws M D w :
  get_own "addItem" M = None ->
  exists bound w1,
    bindActionCreators M D w = (Ret bound, w1) /\
    get_own "addItem" bound = None /\
    forall w2,
      handleOnClick_props bound w2 =
      (Throw (VTypeError "is not a function"), w2).
Proof.
  intros Hnone.
  destruct (bindActionCreators_run M D w) as (bound & w1 & Hrun & Hall & _).
  pose proof (binds_get_own D M bound Hall "addItem") as Hget.
  rewrite Hnone in Hget.
  exists bound, w1. split; [exact Hrun | split; [exact Hget |]].
  intros w2. unfold handleOnClick_props, call_method, and_then.
  now rewrite Hget.
Qed.

End Components_laws.

(** ** Worked instances of the further properties *)

(** A click with [incrementCount] for [addItem] on the echoing dispatch,
    and a click whose action creator throws. *)
Lemma handleOnClick_calls_witness :
  (exists tail,
      w_calls (snd (handleOnClick incrementCount echoing_dispatch
                                  example_world)) =
        Call 1%positive [] :: tail /\
      tail = [Call 5%positive [VObj [("type", VStr "count/increment")]]] /\
      w_state (snd (handleOnClick incrementCount echoing_dispatch
                                  example_world)) =
        [[VObj [("type", VStr "count/increment")]]] /\
      fst (handleOnClick incrementCount echoing_dispatch example_world) =
        Ret VUndef) /\
  (exists tail : list call,
      tail = [] /\
      handleOnClick failing_creator echoing_dispatch example_world =
        (Throw (VStr "invalid"),
         mkWorld [] [Call 6%positive []] 10%positive)).
Proof.
  split.
  - destruct (handleOnClick_calls incrementCount echoing_dispatch example_world)
      as (tail & Hlog & Hret & _ & Hundef).
    exists tail.
    destruct (Hret (VObj [("type", VStr "count/increment")]) [] eq_refl)
      as [Htail Hstate].
    split; [exact Hlog | split; [exact Htail | split; [exact Hstate |]]].
    destruct (fst (handleOnClick incrementCount echoing_dispatch example_world))
      as [r|e] eqn:Hfst.
    + now rewrite (Hundef r eq_refl).
    + discriminate Hfst.
  - destruct (handleOnClick_calls failing_creator echoing_dispatch example_world)
      as (tail & _ & _ & Hthrow & _).
    exists tail. exact (Hthrow (VStr "invalid") [] eq_refl).
Defined.

(** A click on the raw [incrementCount] prop leaves the stub uncalled. *)
Lemma unbound_prop_never_dispatches_witness :
  exists props,
    mapDispatchToProps_unbound incrementCount example_world =
      (Ret props, example_world) /\
    w_calls (snd (handleOnClick_callable props example_world)) =
      [Call 1%positive []] /\
    calls_to 3%positive
             (w_calls (snd (handleOnClick_callable props example_world))) = 0.
Proof.
  destruct (unbound_prop_never_dispatches incrementCount example_world)
    as (props & Hrun & Hclick).
  exists props. split; [exact Hrun |].
  destruct (Hclick example_world) as (Hlog & _ & Hnever).
  split; [exact Hlog |].
  refine (Hnever recording_stub _). cbn. discriminate.
Defined.

(** A bound action creator that throws: the stub is not reached. *)
Lemma wrapper_rethrows_creator_error_witness :
  get_own "addItem" [("addItem", failing_creator)] = Some failing_creator /\
  exists bound w1 c,
    bindActionCreators [("addItem", failing_creator)] recording_stub
                       example_world = (Ret bound, w1) /\
    get_own "addItem" bound = Some c /\
    c_code c [VNum 1] example_world =
      (Throw (VStr "invalid"),
       mkWorld [] [Call 6%positive [VNum 1]] 10%positive).
Proof.
  split; [reflexivity |].
  destruct (wrapper_rethrows_creator_error
              [("addItem", failing_creator)] recording_stub example_world
              "addItem" failing_creator eq_refl)
    as (bound & w1 & c & Hrun & Hc & Hthrow).
  exists bound, w1, c. split; [exact Hrun | split; [exact Hc |]].
  exact (Hthrow [VNum 1] example_world (VStr "invalid") [] eq_refl).
Defined.

(** Two items are shown as 2; a state without [items] cannot be shown. *)
Lemma Counter_render_count_of_items_witness :
  Counter_render_count
    (VObj [("items", VArr [VStr "a"; VStr "b"])]) example_world =
    (Ret (VNum 2), example_world) /\
  Counter_render_count (VObj [("count", VNum 0)]) example_world =
    (Throw (VTypeError "cannot read properties"), example_world).
Proof.
  split.
  - exact (proj1 (Counter_render_count_of_items
                    [("items", VArr [VStr "a"; VStr "b"])] example_world)
                 [VStr "a"; VStr "b"] eq_refl).
  - exact (proj2 (proj2 (Counter_render_count_of_items
                           [("count", VNum 0)] example_world)
                        eq_refl)).
Defined.

(** The example map has no [addItem]: the click throws. *)
Lemma click_without_addItem_throws_witness :
  get_own "addItem" example_map = None /\
  exists bound w1,
    bindActionCreators example_map recording_stub example_world =
      (Ret bound, w1) /\
    get_own "addItem" bound = None /\
    handleOnClick_props bound example_world =
      (Throw (VTypeError "is not a function"), example_world).
Proof.
  split; [reflexivity |].
  destruct (click_without_addItem_throws
              example_map recording_stub example_world eq_refl)
    as (bound & w1 & Hrun & Hnone & Hclick).
  exists bound, w1. split; [exact Hrun | split; [exact Hnone |]].
  exact (Hclick example_world).
Defined.
